(** * sesg.topic_extraction: the LDA and BERTopic adapters

    A shallow embedding of [src/sesg/topic_extraction.py].  The module holds
    two functions, [extract_topics_with_lda] and
    [extract_topics_with_bertopic].  Both build estimator objects of
    third-party libraries (scikit-learn, numpy, BERTopic, UMAP), fit them
    and reshape what the fitted model exposes into a list of topics, each a
    list of words.

    The third-party code is not part of the module.  It is an interface
    here, the class [Libraries]; whatever a theorem needs to know about the
    behaviour of a library is a named contract that the theorem assumes.
    [Toy] is a small executable instance of the interface on which the
    functions can be run. *)

From Stdlib Require Import String ZArith QArith Lia Bool Arith List.
From Stdlib Require Import Permutation Sorted.
Import ListNotations.
Local Open Scope string_scope.
Local Open Scope nat_scope.

Set Implicit Arguments.
Set Warnings "-register-all".

(** ** Python values that the module hands to the libraries *)

(** Constructor arguments are keyword arguments: a name and a value.  An
    estimator object before [fit] is its class and the keyword arguments it
    was built with. *)
Inductive pyval : Type :=
| PyNone
| PyBool (b : bool)
| PyInt (z : Z)
| PyFloat (q : Q)
| PyStr (s : string)
| PyTuple (items : list pyval)
| PyObject (class : string) (params : list (string * pyval)).

Definition kwargs : Type := list (string * pyval).

(** The value a keyword was given, [None] when the call does not pass it
    (the library then applies its own default). *)
Fixpoint kwarg (name : string) (kw : kwargs) : option pyval :=
  match kw with
  | [] => None
  | (k, v) :: rest => if String.eqb k name then Some v else kwarg name rest
  end.

(** Names of the keywords of a call, in the order they are written. *)
Definition keywords (kw : kwargs) : list string := map fst kw.

(** The keyword arguments an object was built with. *)
Definition params_of (object : pyval) : kwargs :=
  match object with
  | PyObject _ params => params
  | _ => []
  end.

(** The keyword arguments of a call other than the named ones. *)
Definition without (names : list string) (kw : kwargs) : kwargs :=
  filter (fun arg => negb (existsb (String.eqb (fst arg)) names)) kw.

(** The caller's [docs] is a Python list object; the function receives a
    reference to it and hands the same reference on. *)
Definition ListRef : Type := nat.

(** ** Results and exceptions *)

Inductive result (E A : Type) : Type :=
| Ok (a : A)
| Raise (e : E).

Arguments Ok {E A} a.
Arguments Raise {E A} e.

(** ** The interface of the third-party libraries *)

Class Libraries : Type := {
  (** Everything that outlives a call: the heap with the caller's objects,
      the libraries' global state (numpy's random generator, caches). *)
  World : Type;
  (** The strings a list object holds. *)
  deref : ListRef -> World -> list string;
  (** What a library call may raise. *)
  LibExc : Type;

  (** sklearn.feature_extraction.text.CountVectorizer *)
  TermMatrix : Type;
  n_features : TermMatrix -> nat;
  Vectorizer : Type;
  fit_transform :
    kwargs -> ListRef -> World -> result LibExc (TermMatrix * Vectorizer) * World;
  get_feature_names_out : Vectorizer -> result LibExc (list string);

  (** sklearn.decomposition.LatentDirichletAllocation *)
  Weight : Type;
  LDA : Type;
  lda_fit : kwargs -> TermMatrix -> World -> result LibExc LDA * World;
  components_ : LDA -> list (list Weight);

  (** numpy.ndarray.argsort, and the order it sorts by *)
  weight_le : Weight -> Weight -> bool;
  argsort : list Weight -> list nat;

  (** bertopic.BERTopic; the UMAP object is one of its keyword arguments *)
  Score : Type;
  TopicModel : Type;
  bertopic_fit_transform :
    kwargs -> ListRef -> World -> result LibExc TopicModel * World;
  get_topics : TopicModel -> result LibExc (list (Z * list (string * Score)));
}.

(** ** The module *)

Module TopicExtraction.

(** [class TopicExtractionStrategy(str, Enum)] *)
Inductive TopicExtractionStrategy : Type :=
| lda
| bertopic.

Definition value (s : TopicExtractionStrategy) : string :=
  match s with
  | lda => "lda"
  | bertopic => "bertopic"
  end.

(** [list(TopicExtractionStrategy)]: the members in the order of the class
    body. *)
Definition members : list TopicExtractionStrategy := [lda; bertopic].

(** [TopicExtractionStrategy(v)]: the member whose value is [v]; [None]
    stands for the [ValueError] of a string that is no member's value. *)
Definition of_value (v : string) : option TopicExtractionStrategy :=
  find (fun s => String.eqb (value s) v) members.

Section Computations.

Context {L : Libraries}.

(** An exception seen by the caller: one a library call raised, or the
    [IndexError] of the subscript [feature_names[i]]. *)
Inductive exn : Type :=
| Raised (e : LibExc)
| IndexError.

(** A Python computation: it runs in a world, ends in a value or in an
    exception, and leaves a world behind. *)
Definition Py (A : Type) : Type := World -> result exn A * World.

Definition ret {A} (a : A) : Py A := fun w => (Ok a, w).

Definition bind {A B} (m : Py A) (k : A -> Py B) : Py B :=
  fun w =>
    match m w with
    | (Ok a, w') => k a w'
    | (Raise e, w') => (Raise e, w')
    end.

(** A call into a library that can touch the world. *)
Definition call {A} (f : World -> result LibExc A * World) : Py A :=
  fun w =>
    match f w with
    | (Ok a, w') => (Ok a, w')
    | (Raise e, w') => (Raise (Raised e), w')
    end.

(** A call of a method that only reads its object. *)
Definition read {A} (r : result LibExc A) : Py A :=
  call (fun w => (r, w)).

(** An expression of the module itself: it leaves the world alone. *)
Definition eval {A} (r : result exn A) : Py A := fun w => (r, w).

(** A list comprehension whose body can raise: left to right, the first
    exception ends it. *)
Fixpoint comprehension {A B} (f : A -> result exn B) (l : list A)
  : result exn (list B) :=
  match l with
  | [] => Ok []
  | a :: rest =>
      match f a with
      | Raise e => Raise e
      | Ok b =>
          match comprehension f rest with
          | Raise e => Raise e
          | Ok bs => Ok (b :: bs)
          end
      end
  end.

(** [feature_names[i]] for an index that is not negative. *)
Definition getitem (feature_names : list string) (i : nat) : result exn string :=
  match nth_error feature_names i with
  | Some word => Ok word
  | None => Raise IndexError
  end.

End Computations.

Notation "x <- m ;; k" := (bind m (fun x => k))
  (at level 61, m at next level, right associativity).
Notation "' p <- m ;; k" := (bind m (fun x => let p := x in k))
  (at level 61, p pattern, m at next level, right associativity).

Section Functions.

Context {L : Libraries}.

(** *** extract_topics_with_lda *)

(** [CountVectorizer(min_df=min_document_frequency, max_df=1.0,
    ngram_range=(1, 3), max_features=None, stop_words="english")] *)
Definition lda_vectorizer (min_document_frequency : Q) : kwargs :=
  [ ("min_df", PyFloat min_document_frequency);
    ("max_df", PyFloat 1.0);
    ("ngram_range", PyTuple [PyInt 1; PyInt 3]);
    ("max_features", PyNone);
    ("stop_words", PyStr "english") ].

(** [LatentDirichletAllocation(n_components=number_of_topics, ...)] *)
Definition lda_model (number_of_topics : Z) : kwargs :=
  let alpha := PyNone in
  let beta := PyNone in
  let learning := PyStr "batch" in
  [ ("n_components", PyInt number_of_topics);
    ("doc_topic_prior", alpha);
    ("topic_word_prior", beta);
    ("learning_method", learning);
    ("learning_decay", PyFloat 0.7);
    ("learning_offset", PyFloat 10.0);
    ("max_iter", PyInt 5000);
    ("batch_size", PyInt 128);
    ("evaluate_every", PyInt (-1));
    ("total_samples", PyFloat 1000000.0);
    ("perp_tol", PyFloat 0.1);
    ("mean_change_tol", PyFloat 0.001);
    ("max_doc_update_iter", PyInt 100);
    ("random_state", PyInt 0) ].

(** [[feature_names[i] for i in topic.argsort()[::-1]]] *)
Definition topic_words (feature_names : list string) (topic : list Weight)
  : result exn (list string) :=
  comprehension (getitem feature_names) (rev (argsort topic)).

Definition extract_topics_with_lda
    (docs : ListRef) (min_document_frequency : Q) (number_of_topics : Z)
  : Py (list (list string)) :=
  let vectorizer := lda_vectorizer min_document_frequency in
  '(tf, fitted) <- call (fit_transform vectorizer docs) ;;
  feature_names <- read (get_feature_names_out fitted) ;;
  let model := lda_model number_of_topics in
  fitted_lda <- call (lda_fit model tf) ;;
  topics <- eval (comprehension (topic_words feature_names)
                                (components_ fitted_lda)) ;;
  ret topics.

(** *** extract_topics_with_bertopic *)

(** [CountVectorizer(stop_words="english", ngram_range=(1, 3))] *)
Definition vectorizer_model : pyval :=
  PyObject "CountVectorizer"
    [ ("stop_words", PyStr "english");
      ("ngram_range", PyTuple [PyInt 1; PyInt 3]) ].

(** [UMAP(n_neighbors=umap_n_neighbors, n_components=5, min_dist=0.0,
    metric="cosine", low_memory=False)] *)
Definition umap_model (umap_n_neighbors : Z) : pyval :=
  PyObject "UMAP"
    [ ("n_neighbors", PyInt umap_n_neighbors);
      ("n_components", PyInt 5);
      ("min_dist", PyFloat 0.0);
      ("metric", PyStr "cosine");
      ("low_memory", PyBool false) ].

(** [BERTopic(language="english", verbose=True, top_n_words=top_n_words,
    min_topic_size=min_topic_size, vectorizer_model=vectorizer_model,
    umap_model=umap_model)] *)
Definition topic_model (top_n_words min_topic_size umap_n_neighbors : Z)
  : kwargs :=
  [ ("language", PyStr "english");
    ("verbose", PyBool true);
    ("top_n_words", PyInt top_n_words);
    ("min_topic_size", PyInt min_topic_size);
    ("vectorizer_model", vectorizer_model);
    ("umap_model", umap_model umap_n_neighbors) ].

(** [.values()] of the mapping, in the mapping's order. *)
Definition values {K V} (m : list (K * V)) : list V := map snd m.

(** [[word for word, _ in topic_group]] *)
Definition group_words (topic_group : list (string * Score)) : list string :=
  map (fun pair => let '(word, _) := pair in word) topic_group.

Definition extract_topics_with_bertopic
    (docs : ListRef) (top_n_words min_topic_size umap_n_neighbors : Z)
  : Py (list (list string)) :=
  let model := topic_model top_n_words min_topic_size umap_n_neighbors in
  fitted <- call (bertopic_fit_transform model docs) ;;
  mapping <- read (get_topics fitted) ;;
  let topics := map group_words (values mapping) in
  ret topics.

End Functions.

End TopicExtraction.

Import TopicExtraction.

(** ** What the theorems assume of the libraries *)

Module Contract.

Section Contracts.

Context {L : Libraries}.

(** The weight at index [i] is at most the weight at index [j]. *)
Definition weight_at_le (row : list Weight) (i j : nat) : Prop :=
  forall x y,
    nth_error row i = Some x -> nth_error row j = Some y ->
    weight_le x y = true.

Definition ascending (row : list Weight) (indices : list nat) : Prop :=
  StronglySorted (weight_at_le row) indices.

Definition descending (row : list Weight) (indices : list nat) : Prop :=
  StronglySorted (fun i j => weight_at_le row j i) indices.

(** numpy: [a.argsort()] is the indices of [a], each once, in an order that
    sorts [a] ascending. *)
Definition argsort_sorts : Prop :=
  forall row,
    Permutation (argsort row) (seq 0 (length row)) /\
    ascending row (argsort row).

(** scikit-learn: the feature names of a fitted vectorizer are its
    vocabulary, one name per column of the matrix, no name twice. *)
Definition vectorizer_names : Prop :=
  forall kw docs w tf fitted w' names,
    fit_transform kw docs w = (Ok (tf, fitted), w') ->
    get_feature_names_out fitted = Ok names ->
    length names = n_features tf /\ NoDup names.

(** scikit-learn: [components_] has shape (n_components, n_features). *)
Definition lda_components_columns : Prop :=
  forall kw tf w fitted w',
    lda_fit kw tf w = (Ok fitted, w') ->
    Forall (fun row => length row = n_features tf) (components_ fitted).

Definition lda_components_rows : Prop :=
  forall kw tf w fitted w' n,
    lda_fit kw tf w = (Ok fitted, w') ->
    kwarg "n_components" kw = Some (PyInt n) ->
    Z.of_nat (length (components_ fitted)) = n.

(** BERTopic: a topic is represented by at most [top_n_words] pairs. *)
Definition bertopic_top_n_words : Prop :=
  forall kw docs w fitted w' n mapping,
    bertopic_fit_transform kw docs w = (Ok fitted, w') ->
    kwarg "top_n_words" kw = Some (PyInt n) ->
    get_topics fitted = Ok mapping ->
    Forall (fun entry => (Z.of_nat (length (snd entry)) <= n)%Z) mapping.

(** scikit-learn: what a vectorizer learns depends on its parameters and
    on the documents, on nothing else. *)
Definition vectorizer_deterministic : Prop :=
  forall kw docs w1 w2,
    deref docs w1 = deref docs w2 ->
    fst (fit_transform kw docs w1) = fst (fit_transform kw docs w2).

(** scikit-learn: an estimator built with an integer [random_state] gives
    the same fit on the same data, whatever happened before. *)
Definition lda_seeded_deterministic : Prop :=
  forall kw tf seed w1 w2,
    kwarg "random_state" kw = Some (PyInt seed) ->
    fst (lda_fit kw tf w1) = fst (lda_fit kw tf w2).

(** The library calls leave an observation of the world as it was. *)
Definition preserves {A} (obs : World -> A) : Prop :=
  (forall kw docs w, obs (snd (fit_transform kw docs w)) = obs w) /\
  (forall kw tf w, obs (snd (lda_fit kw tf w)) = obs w) /\
  (forall kw docs w, obs (snd (bertopic_fit_transform kw docs w)) = obs w).

End Contracts.

End Contract.

(** ** A library double that writes down the calls it receives *)

Module Recorder.

Record received : Type := Received {
  method : string;
  estimator : kwargs;
  documents : option ListRef;
}.

(** Every call succeeds with an empty answer; the world is the list of the
    calls so far, oldest first. *)
Definition library : Libraries := {|
  World := list received;
  deref := fun _ _ => [];
  LibExc := Empty_set;
  TermMatrix := unit;
  n_features := fun _ => 0;
  Vectorizer := unit;
  fit_transform := fun kw docs log =>
    (Ok (tt, tt),
     (log ++ [Received "CountVectorizer.fit_transform" kw (Some docs)])%list);
  get_feature_names_out := fun _ => Ok [];
  Weight := unit;
  LDA := unit;
  lda_fit := fun kw _ log =>
    (Ok tt, (log ++ [Received "LatentDirichletAllocation.fit" kw None])%list);
  components_ := fun _ => [];
  weight_le := fun _ _ => true;
  argsort := fun _ => [];
  Score := unit;
  TopicModel := unit;
  bertopic_fit_transform := fun kw docs log =>
    (Ok tt, (log ++ [Received "BERTopic.fit_transform" kw (Some docs)])%list);
  get_topics := fun _ => Ok [];
|}.

(** The third step of the specification, read on the log of a call that
    starts with an empty log: one call of fit, on the input documents. *)
Definition one_fit_on (docs : ListRef) (log : list received) : Prop :=
  exists fit model, log = [Received fit model (Some docs)].

End Recorder.

(** ** A small executable library *)

Module Toy.

(** The heap holds the caller's list objects; [rng] stands for the global
    random generator, which a draw advances. *)
Record world : Type := World_ {
  heap : list (list string);
  rng : nat;
}.

Definition load (r : ListRef) (w : world) : list string := nth r (heap w) [].

Definition draw (w : world) : world := World_ (heap w) (S (rng w)).

Inductive error : Type :=
| ValueError (message : string).

(** The vectorizer: a document is one term, the vocabulary is the distinct
    documents, a row counts the terms of one document. *)
Record term_matrix : Type := TermMatrix_ {
  columns : nat;
  rows : list (list nat);
}.

Definition vocabulary (docs : list string) : list string :=
  nodup string_dec docs.

Definition count_terms (vocab : list string) (doc : string) : list nat :=
  map (fun term => if String.eqb doc term then 1 else 0) vocab.

Definition vectorize (kw : kwargs) (docs : ListRef) (w : world)
  : result error (term_matrix * list string) * world :=
  match load docs w with
  | [] => (Raise (ValueError "empty vocabulary"), w)
  | contents =>
      let vocab := vocabulary contents in
      (Ok (TermMatrix_ (length vocab) (map (count_terms vocab) contents), vocab),
       w)
  end.

(** The topic model: the weight of term [j] in topic [k] mixes the count of
    the term with the seed. *)
Definition column_sum (tf : term_matrix) (j : nat) : nat :=
  list_sum (map (fun row => nth j row 0) (rows tf)).

Definition topic_row (seed : nat) (tf : term_matrix) (k : nat) : list nat :=
  map (fun j => ((j + seed + 1) * (k + 2) + column_sum tf j) mod 5)
      (seq 0 (columns tf)).

Definition topic_rows (seed : nat) (tf : term_matrix) (n : Z) : list (list nat) :=
  map (topic_row seed tf) (seq 0 (Z.to_nat n)).

(** With an integer [random_state] the fit is seeded by it; without one it
    draws from the global generator. *)
Definition fit_lda (kw : kwargs) (tf : term_matrix) (w : world)
  : result error (list (list nat)) * world :=
  match kwarg "n_components" kw with
  | Some (PyInt n) =>
      if (0 <? n)%Z then
        match kwarg "random_state" kw with
        | Some (PyInt seed) => (Ok (topic_rows (Z.to_nat seed) tf n), w)
        | _ => (Ok (topic_rows (rng w) tf n), draw w)
        end
      else (Raise (ValueError "n_components must be positive"), w)
  | _ => (Raise (ValueError "n_components must be an int"), w)
  end.

(** argsort by insertion: an index goes in front of the first index whose
    weight is not smaller. *)
Fixpoint insert_index (row : list nat) (i : nat) (sorted : list nat)
  : list nat :=
  match sorted with
  | [] => [i]
  | j :: rest =>
      if nth i row 0 <=? nth j row 0 then i :: j :: rest
      else j :: insert_index row i rest
  end.

Definition argsort_by_insertion (row : list nat) : list nat :=
  fold_right (insert_index row) [] (seq 0 (length row)).

(** The order [insert_index] compares by. *)
Definition le_at (row : list nat) (i j : nat) : Prop :=
  nth i row 0 <= nth j row 0.

(** BERTopic: UMAP is seeded by its own [random_state] when it has one and
    by the global generator when it has none. *)
Definition umap_seed (kw : kwargs) (w : world) : nat :=
  match kwarg "umap_model" kw with
  | Some (PyObject _ umap) =>
      match kwarg "random_state" umap with
      | Some (PyInt seed) => Z.to_nat seed
      | _ => rng w
      end
  | _ => rng w
  end.

Definition rotate (n : nat) (l : list string) : list string :=
  (skipn (n mod length l) l ++ firstn (n mod length l) l)%list.

Definition scored (words : list string) : list (string * nat) :=
  combine words (rev (seq 1 (length words))).

Definition fit_bertopic (kw : kwargs) (docs : ListRef) (w : world)
  : result error (list (Z * list (string * nat))) * world :=
  match kwarg "top_n_words" kw with
  | Some (PyInt n) =>
      if (n <? 0)%Z then (Raise (ValueError "top_n_words is negative"), w)
      else
        match load docs w with
        | [] => (Raise (ValueError "no documents"), w)
        | contents =>
            let words := rotate (umap_seed kw w) (vocabulary contents) in
            (Ok [ ((-1)%Z, firstn (Z.to_nat n) (scored words));
                  (0%Z, firstn (Z.to_nat n) (scored (rev words))) ],
             draw w)
        end
  | _ => (Raise (ValueError "top_n_words must be an int"), w)
  end.

Definition library : Libraries := {|
  World := world;
  deref := load;
  LibExc := error;
  TermMatrix := term_matrix;
  n_features := columns;
  Vectorizer := list string;
  fit_transform := vectorize;
  get_feature_names_out := fun vocab => Ok vocab;
  Weight := nat;
  LDA := list (list nat);
  lda_fit := fit_lda;
  components_ := fun rows => rows;
  weight_le := Nat.leb;
  argsort := argsort_by_insertion;
  Score := nat;
  TopicModel := list (Z * list (string * nat));
  bertopic_fit_transform := fit_bertopic;
  get_topics := fun mapping => Ok mapping;
|}.

(** The three documents of the docstrings, the list object at reference 0. *)
Definition docs : ListRef := 0.

Definition smells : string := "detecting code smells with machine learning".
Definition tools : string := "code smells detection tools".
Definition errors : string :=
  "error detection in Java software with machine learning".

Definition corpus : list string := [smells; tools; errors].

Definition start : world := World_ [corpus] 0.

Definition later : world := World_ [corpus] 1.

Definition run_lda (w : world) : result exn (list (list string)) * world :=
  extract_topics_with_lda (L := library) docs 0.1 2 w.

Definition run_bertopic (w : world) : result exn (list (list string)) * world :=
  extract_topics_with_bertopic (L := library) docs 2 10 15 w.

(** What the runs return. *)
Definition lda_topics : list (list string) :=
  [ [smells; errors; tools]; [smells; tools; errors] ].

Definition bertopic_topics_at_start : list (list string) :=
  [ [smells; tools]; [errors; tools] ].

Definition bertopic_topics_later : list (list string) :=
  [ [tools; errors]; [smells; errors] ].

End Toy.

(** ** A library that breaks the shape contract *)

Module Ragged.

(** The toy library, but the fitted vectorizer reports one feature name
    fewer than its matrix has columns. *)
Definition library : Libraries := {|
  World := Toy.world;
  deref := Toy.load;
  LibExc := Toy.error;
  TermMatrix := Toy.term_matrix;
  n_features := Toy.columns;
  Vectorizer := list string;
  fit_transform := Toy.vectorize;
  get_feature_names_out := fun vocab => Ok (removelast vocab);
  Weight := nat;
  LDA := list (list nat);
  lda_fit := Toy.fit_lda;
  components_ := fun rows => rows;
  weight_le := Nat.leb;
  argsort := Toy.argsort_by_insertion;
  Score := nat;
  TopicModel := list (Z * list (string * nat));
  bertopic_fit_transform := Toy.fit_bertopic;
  get_topics := fun mapping => Ok mapping;
|}.

End Ragged.

(** * Properties *)

(** Among the library calls that an exception can come from, only the one
    that did raise agrees with the run. *)
Ltac which_call H := decompose [or ex and] H; clear H; congruence.

(** ** Lists, comprehensions and subscripts *)

Section Comprehensions.

Context {L : Libraries}.

Lemma comprehension_Ok_iff A B (f : A -> result exn B) l bs :
  comprehension f l = Ok bs <-> Forall2 (fun a b => f a = Ok b) l bs.
Proof.
  revert bs; induction l as [|a l IH]; intros bs; simpl.
  - split; intros H.
    + injection H as <-; constructor.
    + inversion H; reflexivity.
  - destruct (f a) as [b|e] eqn:Ea.
    + destruct (comprehension f l) as [bs'|e] eqn:El.
      * split; intros H.
        -- injection H as <-; constructor; [assumption|]. now apply IH.
        -- inversion H as [|a0 b0 l0 bs0 Hb Hrest]; subst.
           apply IH in Hrest. congruence.
      * split; intros H; [discriminate|].
        inversion H as [|a0 b0 l0 bs0 Hb Hrest]; subst.
        apply IH in Hrest; discriminate.
    + split; intros H; [discriminate|].
      inversion H; congruence.
Qed.

Lemma comprehension_length A B (f : A -> result exn B) l bs :
  comprehension f l = Ok bs -> length bs = length l.
Proof.
  intros H; apply comprehension_Ok_iff in H.
  symmetry; eapply Forall2_length; eassumption.
Qed.

Lemma comprehension_defined A B (f : A -> result exn B) l :
  Forall (fun a => exists b, f a = Ok b) l ->
  exists bs, comprehension f l = Ok bs.
Proof.
  induction 1 as [|a l [b Hb] _ [bs Hbs]]; simpl.
  - now exists [].
  - rewrite Hb, Hbs. now exists (b :: bs).
Qed.

(** An exception of a comprehension is an exception of its body. *)
Lemma comprehension_Raise A B (f : A -> result exn B) l e :
  comprehension f l = Raise e -> exists a, In a l /\ f a = Raise e.
Proof.
  induction l as [|a l IH]; simpl; [discriminate|].
  destruct (f a) as [b|e'] eqn:Ea.
  - destruct (comprehension f l) as [bs|e'']; [discriminate|].
    intros H; injection H as ->.
    destruct IH as [a' [Hin Ha']]; [reflexivity|]. eauto.
  - intros H; injection H as ->. eauto.
Qed.

Lemma getitem_Ok_iff names i word :
  getitem names i = Ok word <-> nth_error names i = Some word.
Proof.
  unfold getitem. destruct (nth_error names i); split; congruence.
Qed.

Lemma getitem_in_range names i :
  i < length names -> exists word, getitem names i = Ok word.
Proof.
  intros H. unfold getitem.
  destruct (nth_error names i) as [word|] eqn:E; [eauto|].
  apply nth_error_None in E. lia.
Qed.

Lemma getitem_Raise names i e :
  getitem names i = Raise e -> e = IndexError /\ length names <= i.
Proof.
  unfold getitem. destruct (nth_error names i) eqn:E; [discriminate|].
  intros H; injection H as <-. split; [reflexivity|].
  now apply nth_error_None.
Qed.

(** The words of a comprehension over subscripts are the subscripted
    elements, in the order of the indices. *)
Lemma subscripts_Ok_iff names indices words :
  comprehension (getitem names) indices = Ok words <->
  map Some words = map (nth_error names) indices.
Proof.
  rewrite comprehension_Ok_iff.
  revert words; induction indices as [|i indices IH]; intros words.
  - split; intros H.
    + inversion H; reflexivity.
    + destruct words; [constructor|discriminate].
  - split; intros H.
    + inversion H as [|i0 word l0 rest Hword Hrest]; subst; simpl.
      apply getitem_Ok_iff in Hword. apply IH in Hrest. congruence.
    + destruct words as [|word rest]; [discriminate|].
      simpl in H. injection H as Hword Hrest.
      constructor; [now apply getitem_Ok_iff|now apply IH].
Qed.

Lemma all_by_index A (l : list A) :
  map (nth_error l) (seq 0 (length l)) = map Some l.
Proof.
  induction l as [|a l IH]; [reflexivity|].
  simpl. rewrite <- seq_shift, map_map. f_equal. exact IH.
Qed.

Lemma map_Some_inj A (l l' : list A) :
  map Some l = map Some l' -> l = l'.
Proof.
  revert l'; induction l as [|a l IH]; intros [|a' l']; simpl;
    try discriminate; [reflexivity|].
  intros H; injection H as -> H. f_equal. now apply IH.
Qed.

Lemma map_Some_Permutation A (l l' : list A) :
  Permutation (map Some l) (map Some l') -> Permutation l l'.
Proof.
  intros H.
  destruct (Permutation_map_inv _ _ H) as [l3 [E P]].
  apply map_Some_inj in E. subst l3. now symmetry.
Qed.

End Comprehensions.

(** ** How the two functions run *)

Section Runs.

Context {L : Libraries}.

(** The LDA function, one library call after the other. *)
Lemma lda_run docs min_document_frequency number_of_topics w :
  extract_topics_with_lda docs min_document_frequency number_of_topics w =
  match fit_transform (lda_vectorizer min_document_frequency) docs w with
  | (Raise e, w1) => (Raise (Raised e), w1)
  | (Ok (tf, fitted), w1) =>
      match get_feature_names_out fitted with
      | Raise e => (Raise (Raised e), w1)
      | Ok feature_names =>
          match lda_fit (lda_model number_of_topics) tf w1 with
          | (Raise e, w2) => (Raise (Raised e), w2)
          | (Ok fitted_lda, w2) =>
              (comprehension (topic_words feature_names)
                             (components_ fitted_lda), w2)
          end
      end
  end.
Proof.
  unfold extract_topics_with_lda, bind, read, call, eval, ret.
  destruct (fit_transform _ docs w) as [[[tf fitted]|e] w1]; [|reflexivity].
  destruct (get_feature_names_out fitted) as [names|e]; [|reflexivity].
  destruct (lda_fit _ tf w1) as [[fitted_lda|e] w2]; [|reflexivity].
  now destruct (comprehension _ _).
Qed.

(** The BERTopic function, one library call after the other. *)
Lemma bertopic_run docs top_n_words min_topic_size umap_n_neighbors w :
  extract_topics_with_bertopic docs top_n_words min_topic_size
                               umap_n_neighbors w =
  match bertopic_fit_transform
          (topic_model top_n_words min_topic_size umap_n_neighbors) docs w with
  | (Raise e, w1) => (Raise (Raised e), w1)
  | (Ok fitted, w1) =>
      match get_topics fitted with
      | Raise e => (Raise (Raised e), w1)
      | Ok mapping => (Ok (map group_words (values mapping)), w1)
      end
  end.
Proof.
  unfold extract_topics_with_bertopic, bind, read, call, ret.
  destruct (bertopic_fit_transform _ docs w) as [[fitted|e] w1]; [|reflexivity].
  now destruct (get_topics fitted).
Qed.

(** A return of the LDA function, read backwards. *)
Lemma lda_returns docs min_document_frequency number_of_topics w topics w' :
  extract_topics_with_lda docs min_document_frequency number_of_topics w
    = (Ok topics, w') ->
  exists tf fitted w1 feature_names fitted_lda,
    fit_transform (lda_vectorizer min_document_frequency) docs w
      = (Ok (tf, fitted), w1) /\
    get_feature_names_out fitted = Ok feature_names /\
    lda_fit (lda_model number_of_topics) tf w1 = (Ok fitted_lda, w') /\
    comprehension (topic_words feature_names) (components_ fitted_lda)
      = Ok topics.
Proof.
  rewrite lda_run.
  destruct (fit_transform _ docs w) as [[[tf fitted]|e] w1]; [|discriminate].
  destruct (get_feature_names_out fitted) as [names|e] eqn:En; [|discriminate].
  destruct (lda_fit _ tf w1) as [[fitted_lda|e] w2] eqn:Ef; [|discriminate].
  intros H; injection H as Ht <-.
  exists tf, fitted, w1, names, fitted_lda. auto.
Qed.

(** A return of the BERTopic function, read backwards. *)
Lemma bertopic_returns
    docs top_n_words min_topic_size umap_n_neighbors w topics w' :
  extract_topics_with_bertopic docs top_n_words min_topic_size
                               umap_n_neighbors w = (Ok topics, w') ->
  exists fitted mapping,
    bertopic_fit_transform
      (topic_model top_n_words min_topic_size umap_n_neighbors) docs w
      = (Ok fitted, w') /\
    get_topics fitted = Ok mapping /\
    topics = map group_words (values mapping).
Proof.
  rewrite bertopic_run.
  destruct (bertopic_fit_transform _ docs w) as [[fitted|e] w1]; [|discriminate].
  destruct (get_topics fitted) as [mapping|e] eqn:Eg; [|discriminate].
  intros H; injection H as <- <-.
  exists fitted, mapping. auto.
Qed.

(** Reversal turns an ascending order into a descending one. *)
Lemma StronglySorted_snoc A (R : A -> A -> Prop) l a :
  StronglySorted R l -> Forall (fun x => R x a) l ->
  StronglySorted R (l ++ [a]).
Proof.
  induction 1 as [|b l Hl IH Hb]; intros Ha; simpl.
  - repeat constructor.
  - inversion Ha as [|b0 l0 Hba Hla]; subst.
    constructor; [now apply IH|].
    apply Forall_app; split; [assumption|now constructor].
Qed.

Lemma StronglySorted_rev A (R : A -> A -> Prop) l :
  StronglySorted R l -> StronglySorted (fun x y => R y x) (rev l).
Proof.
  induction 1 as [|a l Hl IH Ha]; simpl; [constructor|].
  apply StronglySorted_snoc; [assumption|].
  apply Forall_rev. exact Ha.
Qed.

Lemma ascending_rev row indices :
  Contract.ascending row indices -> Contract.descending row (rev indices).
Proof. apply StronglySorted_rev. Qed.

(** The words of one topic when [argsort] returns each index once and the
    row has a weight for each feature name. *)
Lemma topic_words_defined feature_names row :
  Permutation (argsort row) (seq 0 (length row)) ->
  length row = length feature_names ->
  exists words,
    topic_words feature_names row = Ok words /\
    map Some words = map (nth_error feature_names) (rev (argsort row)) /\
    Permutation words feature_names.
Proof.
  intros Hperm Hlen. unfold topic_words.
  assert (Hrev : Permutation (rev (argsort row)) (seq 0 (length feature_names))).
  { rewrite <- Hlen, <- Hperm. symmetry. apply Permutation_rev. }
  destruct (comprehension_defined (getitem feature_names) (l := rev (argsort row)))
    as [words Hwords].
  { apply Forall_forall. intros i Hi.
    apply getitem_in_range.
    apply (Permutation_in _ Hrev), in_seq in Hi. lia. }
  exists words. split; [assumption|].
  apply subscripts_Ok_iff in Hwords. split; [assumption|].
  apply map_Some_Permutation.
  rewrite Hwords, <- all_by_index.
  now apply Permutation_map.
Qed.

(** All topics, under the contracts of numpy and scikit-learn. *)
Lemma lda_topics_defined feature_names components :
  Contract.argsort_sorts ->
  Forall (fun row => length row = length feature_names) components ->
  exists topics,
    comprehension (topic_words feature_names) components = Ok topics /\
    Forall2 (fun row words =>
               map Some words
                 = map (nth_error feature_names) (rev (argsort row)) /\
               Permutation words feature_names)
            components topics.
Proof.
  intros Hsort Hcols.
  induction Hcols as [|row components Hrow _ [topics [Ht HF]]].
  - exists []. split; [reflexivity|constructor].
  - destruct (topic_words_defined feature_names row) as [words [Hw [Hm Hp]]];
      [apply Hsort|assumption|].
    exists (words :: topics). split.
    + simpl. now rewrite Hw, Ht.
    + constructor; auto.
Qed.

End Runs.

(** ** The toy library keeps the contracts *)

Module ToyFacts.

Import Toy.

Lemma insert_index_Permutation row i sorted :
  Permutation (insert_index row i sorted) (i :: sorted).
Proof.
  induction sorted as [|j rest IH]; simpl; [reflexivity|].
  destruct (nth i row 0 <=? nth j row 0); [reflexivity|].
  rewrite IH. apply perm_swap.
Qed.

Lemma argsort_Permutation_from row indices :
  Permutation (fold_right (insert_index row) [] indices) indices.
Proof.
  induction indices as [|i indices IH]; simpl; [reflexivity|].
  rewrite insert_index_Permutation. now constructor.
Qed.

Lemma insert_index_sorted row i sorted :
  StronglySorted (le_at row) sorted ->
  StronglySorted (le_at row) (insert_index row i sorted).
Proof.
  induction 1 as [|j rest Hrest IH Hj]; simpl.
  - repeat constructor.
  - destruct (nth i row 0 <=? nth j row 0) eqn:E.
    + apply Nat.leb_le in E.
      constructor; [now constructor|].
      constructor; [exact E|].
      eapply Forall_impl; [|exact Hj].
      unfold le_at in *. intros k Hk. lia.
    + apply Nat.leb_gt in E.
      constructor; [assumption|].
      eapply Permutation_Forall.
      * symmetry. apply insert_index_Permutation.
      * constructor; [unfold le_at; lia|assumption].
Qed.

Lemma argsort_sorted_from row indices :
  StronglySorted (le_at row) (fold_right (insert_index row) [] indices).
Proof.
  induction indices as [|i indices IH]; simpl; [constructor|].
  now apply insert_index_sorted.
Qed.

Lemma le_at_weight row i j :
  le_at row i j -> Contract.weight_at_le (L := library) row i j.
Proof.
  unfold le_at, Contract.weight_at_le. intros H x y Hx Hy. simpl.
  rewrite (nth_error_nth _ _ 0 Hx), (nth_error_nth _ _ 0 Hy) in H.
  now apply Nat.leb_le.
Qed.

Lemma sorted_by_weight row indices :
  StronglySorted (le_at row) indices ->
  Contract.ascending (L := library) row indices.
Proof.
  induction 1 as [|i l Hl IH Hi]; constructor; [assumption|].
  eapply Forall_impl; [|exact Hi]. intros j. apply le_at_weight.
Qed.

Lemma toy_argsort_sorts : Contract.argsort_sorts (L := library).
Proof.
  intros row. split.
  - apply argsort_Permutation_from.
  - apply sorted_by_weight, argsort_sorted_from.
Qed.

Lemma toy_vectorizer_names : Contract.vectorizer_names (L := library).
Proof.
  intros kw r w tf fitted w' names Hfit Hnames. simpl in *.
  unfold vectorize in Hfit.
  destruct (load r w) as [|doc rest]; [discriminate|].
  injection Hfit as <- <- <-. injection Hnames as <-.
  split; [reflexivity|apply (NoDup_nodup string_dec (doc :: rest))].
Qed.

Lemma fit_lda_Ok kw tf w fitted w' :
  fit_lda kw tf w = (Ok fitted, w') ->
  exists n seed,
    kwarg "n_components" kw = Some (PyInt n) /\ (0 < n)%Z /\
    fitted = topic_rows seed tf n.
Proof.
  unfold fit_lda.
  destruct (kwarg "n_components" kw) as [[]|] eqn:En; try discriminate.
  destruct (0 <? z)%Z eqn:Ez; [|discriminate].
  apply Z.ltb_lt in Ez. intros H. exists z.
  destruct (kwarg "random_state" kw) as [[]|];
    injection H as <- _; eauto.
Qed.

Lemma toy_lda_components_columns :
  Contract.lda_components_columns (L := library).
Proof.
  intros kw tf w fitted w' Hfit. simpl in *.
  apply fit_lda_Ok in Hfit. destruct Hfit as [n [seed [_ [_ ->]]]].
  unfold topic_rows. apply Forall_forall. intros row Hrow.
  apply in_map_iff in Hrow. destruct Hrow as [k [<- _]].
  unfold topic_row. now rewrite length_map, length_seq.
Qed.

Lemma toy_lda_components_rows :
  Contract.lda_components_rows (L := library).
Proof.
  intros kw tf w fitted w' n Hfit Hn. simpl in *.
  apply fit_lda_Ok in Hfit. destruct Hfit as [n' [seed [Hn' [Hpos ->]]]].
  assert (n' = n) by congruence. subst n'.
  unfold topic_rows. rewrite length_map, length_seq. lia.
Qed.

Lemma toy_bertopic_top_n_words :
  Contract.bertopic_top_n_words (L := library).
Proof.
  intros kw r w fitted w' n mapping Hfit Hn Hget. simpl in *.
  injection Hget as <-. unfold fit_bertopic in Hfit. rewrite Hn in Hfit.
  destruct (n <? 0)%Z eqn:E; [discriminate|]. apply Z.ltb_ge in E.
  destruct (load r w) as [|doc rest]; [discriminate|].
  injection Hfit as <- _.
  repeat constructor; simpl; rewrite length_firstn; lia.
Qed.

Lemma toy_vectorizer_deterministic :
  Contract.vectorizer_deterministic (L := library).
Proof.
  intros kw r w1 w2 Hdocs. simpl in *. unfold vectorize. rewrite Hdocs.
  now destruct (load r w2).
Qed.

Lemma toy_lda_seeded_deterministic :
  Contract.lda_seeded_deterministic (L := library).
Proof.
  intros kw tf seed w1 w2 Hseed. simpl. unfold fit_lda. rewrite Hseed.
  destruct (kwarg "n_components" kw) as [[]|]; try reflexivity.
  now destruct (0 <? z)%Z.
Qed.

(** No call of the toy library writes to a list object. *)
Lemma preserves_lists r : Contract.preserves (L := library) (deref r).
Proof.
  repeat split; simpl.
  - intros kw docs w. unfold vectorize. now destruct (load docs w).
  - intros kw tf w. unfold fit_lda.
    destruct (kwarg "n_components" kw) as [[]|]; try reflexivity.
    destruct (0 <? z)%Z; [|reflexivity].
    now destruct (kwarg "random_state" kw) as [[]|].
  - intros kw docs w. unfold fit_bertopic.
    destruct (kwarg "top_n_words" kw) as [[]|]; try reflexivity.
    destruct (z <? 0)%Z; [reflexivity|].
    now destruct (load docs w).
Qed.

End ToyFacts.

(** ** The claims *)

Section Claims.

Context {L : Libraries}.

(** C1.  For every list of documents and valid parameters both functions
    return a list of topics, each topic a list of words, with one inner
    list per topic of the fitted model: when the library calls succeed,
    [extract_topics_with_lda] returns one list of strings per row of
    [components_] and [extract_topics_with_bertopic] one list of strings
    per entry of [get_topics()]. *)
Theorem topics_one_list_per_topic :
  Contract.argsort_sorts ->
  Contract.vectorizer_names ->
  Contract.lda_components_columns ->
  (forall docs min_document_frequency number_of_topics w
          tf fitted w1 feature_names fitted_lda w2,
      fit_transform (lda_vectorizer min_document_frequency) docs w
        = (Ok (tf, fitted), w1) ->
      get_feature_names_out fitted = Ok feature_names ->
      lda_fit (lda_model number_of_topics) tf w1 = (Ok fitted_lda, w2) ->
      exists topics : list (list string),
        extract_topics_with_lda docs min_document_frequency number_of_topics w
          = (Ok topics, w2) /\
        length topics = length (components_ fitted_lda)) /\
  (forall docs top_n_words min_topic_size umap_n_neighbors w
          fitted w1 mapping,
      bertopic_fit_transform
        (topic_model top_n_words min_topic_size umap_n_neighbors) docs w
        = (Ok fitted, w1) ->
      get_topics fitted = Ok mapping ->
      exists topics : list (list string),
        extract_topics_with_bertopic docs top_n_words min_topic_size
                                     umap_n_neighbors w = (Ok topics, w1) /\
        length topics = length mapping).
Proof.
  intros Hsort Hnames Hcols. split.
  - intros docs mdf n w tf fitted w1 names fitted_lda w2 Hfit Hn Hlda.
    destruct (Hnames _ _ _ _ _ _ _ Hfit Hn) as [Hlen _].
    destruct (@lda_topics_defined L names (components_ fitted_lda) Hsort)
      as [topics [Htopics _]].
    { eapply Forall_impl; [|exact (Hcols _ _ _ _ _ Hlda)].
      intros row Hrow. simpl in Hrow. congruence. }
    exists topics. split.
    + rewrite lda_run, Hfit, Hn, Hlda, Htopics. reflexivity.
    + eapply comprehension_length; eassumption.
  - intros docs top_n mts umap w fitted w1 mapping Hfit Hget.
    exists (map group_words (values mapping)). split.
    + rewrite bertopic_run, Hfit, Hget. reflexivity.
    + unfold values. now rewrite !length_map.
Qed.

(** C2.  Each topic returned by [extract_topics_with_lda] is the feature
    names taken at the indices of the ascending argsort of the topic's row
    of [components_], reversed; along these indices the weights descend. *)
Theorem lda_topic_by_descending_weight :
  Contract.argsort_sorts ->
  forall docs min_document_frequency number_of_topics w topics w',
    extract_topics_with_lda docs min_document_frequency number_of_topics w
      = (Ok topics, w') ->
    exists tf fitted w1 feature_names fitted_lda,
      fit_transform (lda_vectorizer min_document_frequency) docs w
        = (Ok (tf, fitted), w1) /\
      get_feature_names_out fitted = Ok feature_names /\
      lda_fit (lda_model number_of_topics) tf w1 = (Ok fitted_lda, w') /\
      Forall2 (fun row words =>
                 map Some words
                   = map (nth_error feature_names) (rev (argsort row)) /\
                 Contract.descending row (rev (argsort row)))
              (components_ fitted_lda) topics.
Proof.
  intros Hsort docs mdf n w topics w' Hrun.
  destruct (lda_returns _ _ _ _ Hrun)
    as [tf [fitted [w1 [names [fitted_lda [Hfit [Hn [Hlda Htopics]]]]]]]].
  exists tf, fitted, w1, names, fitted_lda. repeat split; try assumption.
  apply comprehension_Ok_iff in Htopics.
  eapply Forall2_impl; [|exact Htopics].
  intros row words Hwords. split.
  - now apply subscripts_Ok_iff.
  - apply ascending_rev, Hsort.
Qed.

(** C8.  Every topic returned by [extract_topics_with_lda] is a permutation
    of the vectorizer's feature names: it holds each name once, and its
    length is the size of the vocabulary. *)
Theorem lda_topic_permutes_vocabulary :
  Contract.argsort_sorts ->
  Contract.vectorizer_names ->
  Contract.lda_components_columns ->
  forall docs min_document_frequency number_of_topics w topics w',
    extract_topics_with_lda docs min_document_frequency number_of_topics w
      = (Ok topics, w') ->
    exists tf fitted w1 feature_names,
      fit_transform (lda_vectorizer min_document_frequency) docs w
        = (Ok (tf, fitted), w1) /\
      get_feature_names_out fitted = Ok feature_names /\
      Forall (fun words =>
                Permutation words feature_names /\
                NoDup words /\
                length words = length feature_names)
             topics.
Proof.
  intros Hsort Hnames Hcols docs mdf n w topics w' Hrun.
  destruct (lda_returns _ _ _ _ Hrun)
    as [tf [fitted [w1 [names [fitted_lda [Hfit [Hn [Hlda Htopics]]]]]]]].
  exists tf, fitted, w1, names. repeat split; try assumption.
  destruct (Hnames _ _ _ _ _ _ _ Hfit Hn) as [Hlen Hdistinct].
  destruct (@lda_topics_defined L names (components_ fitted_lda) Hsort)
    as [topics' [Htopics' Hall]].
  { eapply Forall_impl; [|exact (Hcols _ _ _ _ _ Hlda)].
    intros row Hrow. simpl in Hrow. congruence. }
  assert (topics' = topics) by congruence. subst topics'.
  clear - Hall Hdistinct.
  induction Hall as [|row words rows topics [_ Hperm] _ IH]; constructor.
  - repeat split.
    + exact Hperm.
    + eapply Permutation_NoDup; [symmetry; exact Hperm|exact Hdistinct].
    + now apply Permutation_length.
  - exact IH.
Qed.

(** C9.  When [extract_topics_with_lda] returns, the number of topics is
    [number_of_topics]. *)
Theorem lda_number_of_topics :
  Contract.lda_components_rows ->
  forall docs min_document_frequency number_of_topics w topics w',
    extract_topics_with_lda docs min_document_frequency number_of_topics w
      = (Ok topics, w') ->
    Z.of_nat (length topics) = number_of_topics.
Proof.
  intros Hrows docs mdf n w topics w' Hrun.
  destruct (lda_returns _ _ _ _ Hrun)
    as [tf [fitted [w1 [names [fitted_lda [Hfit [Hn [Hlda Htopics]]]]]]]].
  rewrite (comprehension_length _ _ Htopics).
  eapply Hrows; [exact Hlda|reflexivity].
Qed.

(** C10.  When [extract_topics_with_bertopic] returns, its topics are the
    entries of [get_topics()] in the mapping's order, and the words of a
    topic are the first components of the entry's (word, score) pairs in
    the order of the pairs; no score is kept, and a topic has at most
    [top_n_words] words. *)
Theorem bertopic_keeps_words_in_order :
  Contract.bertopic_top_n_words ->
  forall docs top_n_words min_topic_size umap_n_neighbors w topics w',
    extract_topics_with_bertopic docs top_n_words min_topic_size
                                 umap_n_neighbors w = (Ok topics, w') ->
    exists fitted mapping,
      bertopic_fit_transform
        (topic_model top_n_words min_topic_size umap_n_neighbors) docs w
        = (Ok fitted, w') /\
      get_topics fitted = Ok mapping /\
      Forall2 (fun entry words =>
                 Forall2 (fun pair word => fst pair = word) (snd entry) words)
              mapping topics /\
      Forall (fun words => (Z.of_nat (length words) <= top_n_words)%Z) topics.
Proof.
  intros Htop docs top_n mts umap w topics w' Hrun.
  destruct (bertopic_returns _ _ _ _ _ Hrun)
    as [fitted [mapping [Hfit [Hget ->]]]].
  exists fitted, mapping. repeat split; try assumption.
  - clear. induction mapping as [|[key group] mapping IH]; constructor.
    + simpl. clear. induction group as [|[word score] group IH];
        constructor; [reflexivity|exact IH].
    + exact IH.
  - assert (Hle := Htop _ _ _ _ _ _ _ Hfit eq_refl Hget).
    clear - Hle. induction Hle as [|[key group] mapping Hgroup _ IH];
      constructor; [|exact IH].
    unfold group_words. now rewrite length_map.
Qed.

(** C6.  Neither function handles failures.  The function ends in an
    exception exactly when one of its library calls raises, the exception
    is the one the library raised, and the world is as the library left it;
    no exception is the function's own. *)
Theorem library_errors_propagate_unchanged :
  Contract.argsort_sorts ->
  Contract.vectorizer_names ->
  Contract.lda_components_columns ->
  (forall docs min_document_frequency number_of_topics w x w',
      extract_topics_with_lda docs min_document_frequency number_of_topics w
        = (Raise x, w') <->
      exists e,
        x = Raised e /\
        (fit_transform (lda_vectorizer min_document_frequency) docs w
           = (Raise e, w') \/
         (exists tf fitted,
             fit_transform (lda_vectorizer min_document_frequency) docs w
               = (Ok (tf, fitted), w') /\
             get_feature_names_out fitted = Raise e) \/
         (exists tf fitted w1 feature_names,
             fit_transform (lda_vectorizer min_document_frequency) docs w
               = (Ok (tf, fitted), w1) /\
             get_feature_names_out fitted = Ok feature_names /\
             lda_fit (lda_model number_of_topics) tf w1 = (Raise e, w')))) /\
  (forall docs top_n_words min_topic_size umap_n_neighbors w x w',
      extract_topics_with_bertopic docs top_n_words min_topic_size
                                   umap_n_neighbors w = (Raise x, w') <->
      exists e,
        x = Raised e /\
        (bertopic_fit_transform
           (topic_model top_n_words min_topic_size umap_n_neighbors) docs w
           = (Raise e, w') \/
         (exists fitted,
             bertopic_fit_transform
               (topic_model top_n_words min_topic_size umap_n_neighbors) docs w
               = (Ok fitted, w') /\
             get_topics fitted = Raise e))).
Proof.
  intros Hsort Hnames Hcols. split.
  - intros docs mdf n w x w'. rewrite lda_run.
    destruct (fit_transform _ docs w) as [[[tf fitted]|e] w1] eqn:Hfit.
    + destruct (get_feature_names_out fitted) as [names|e] eqn:Hn.
      * destruct (lda_fit _ tf w1) as [[fitted_lda|e] w2] eqn:Hlda.
        -- destruct (Hnames _ _ _ _ _ _ _ Hfit Hn) as [Hlen _].
           destruct (@lda_topics_defined L names (components_ fitted_lda) Hsort)
             as [topics [Htopics _]].
           { eapply Forall_impl; [|exact (Hcols _ _ _ _ _ Hlda)].
             intros row Hrow. simpl in Hrow. congruence. }
           rewrite Htopics. split; [discriminate|]. intros [e [_ H]].
           which_call H.
        -- split.
           ++ intros H; injection H as <- <-. exists e. split; [reflexivity|].
              right; right. exists tf, fitted, w1, names. auto.
           ++ intros [e' [-> H]]. which_call H.
      * split.
        -- intros H; injection H as <- <-. exists e. split; [reflexivity|].
           right; left. exists tf, fitted. auto.
        -- intros [e' [-> H]]. which_call H.
    + split.
      * intros H; injection H as <- <-. exists e. auto.
      * intros [e' [-> H]]. which_call H.
  - intros docs top_n mts umap w x w'. rewrite bertopic_run.
    destruct (bertopic_fit_transform _ docs w) as [[fitted|e] w1] eqn:Hfit.
    + destruct (get_topics fitted) as [mapping|e] eqn:Hget.
      * split; [discriminate|]. intros [e [_ H]]. which_call H.
      * split.
        -- intros H; injection H as <- <-. exists e. split; [reflexivity|].
           right. exists fitted. auto.
        -- intros [e' [-> H]]. which_call H.
    + split.
      * intros H; injection H as <- <-. exists e. auto.
      * intros [e' [-> H]]. which_call H.
Qed.

(** What the library calls leave as it was, the functions leave as it
    was: they write nothing themselves. *)
Lemma functions_frame A (obs : World -> A) :
  Contract.preserves obs ->
  forall docs min_document_frequency number_of_topics
         top_n_words min_topic_size umap_n_neighbors w,
    obs (snd (extract_topics_with_lda docs min_document_frequency
                                      number_of_topics w)) = obs w /\
    obs (snd (extract_topics_with_bertopic docs top_n_words min_topic_size
                                           umap_n_neighbors w)) = obs w.
Proof.
  intros [Hcv [Hlda Hbert]] docs mdf n top_n mts umap w. split.
  - rewrite lda_run.
    assert (H1 := Hcv (lda_vectorizer mdf) docs w).
    destruct (fit_transform _ docs w) as [[[tf fitted]|e] w1]; simpl in *;
      [|exact H1].
    destruct (get_feature_names_out fitted) as [names|e]; simpl; [|exact H1].
    assert (H2 := Hlda (lda_model n) tf w1).
    destruct (lda_fit _ tf w1) as [[fitted_lda|e] w2]; simpl in *; congruence.
  - rewrite bertopic_run.
    assert (H1 := Hbert (topic_model top_n mts umap) docs w).
    destruct (bertopic_fit_transform _ docs w) as [[fitted|e] w1]; simpl in *;
      [|exact H1].
    now destruct (get_topics fitted).
Qed.

(** C3, in the form the code supports.  [extract_topics_with_lda] is
    deterministic: it seeds the estimator with [random_state=0], so two
    calls on the same documents with the same parameters return the same
    result in any two worlds.
    [extract_topics_with_bertopic] adds no state of its own: two calls
    return the same result whenever BERTopic's fit does. *)
Theorem lda_deterministic_bertopic_as_its_fit :
  Contract.vectorizer_deterministic ->
  Contract.lda_seeded_deterministic ->
  (forall docs min_document_frequency number_of_topics w1 w2,
      deref docs w1 = deref docs w2 ->
      fst (extract_topics_with_lda docs min_document_frequency
                                   number_of_topics w1)
      = fst (extract_topics_with_lda docs min_document_frequency
                                     number_of_topics w2)) /\
  (forall docs top_n_words min_topic_size umap_n_neighbors w1 w2,
      fst (bertopic_fit_transform
             (topic_model top_n_words min_topic_size umap_n_neighbors) docs w1)
      = fst (bertopic_fit_transform
               (topic_model top_n_words min_topic_size umap_n_neighbors)
               docs w2) ->
      fst (extract_topics_with_bertopic docs top_n_words min_topic_size
                                        umap_n_neighbors w1)
      = fst (extract_topics_with_bertopic docs top_n_words min_topic_size
                                          umap_n_neighbors w2)).
Proof.
  intros Hcv Hseeded. split.
  - intros docs mdf n w1 w2 Hdocs. rewrite !lda_run.
    assert (H := Hcv (lda_vectorizer mdf) docs w1 w2 Hdocs).
    destruct (fit_transform _ docs w1) as [r1 u1].
    destruct (fit_transform _ docs w2) as [r2 u2].
    simpl in H. subst r2.
    destruct r1 as [[tf fitted]|e]; [|reflexivity].
    destruct (get_feature_names_out fitted) as [names|e]; [|reflexivity].
    assert (H := Hseeded (lda_model n) tf 0%Z u1 u2 eq_refl).
    destruct (lda_fit _ tf u1) as [r1 v1].
    destruct (lda_fit _ tf u2) as [r2 v2].
    simpl in H. subst r2.
    now destruct r1.
  - intros docs top_n mts umap w1 w2 H. rewrite !bertopic_run.
    destruct (bertopic_fit_transform _ docs w1) as [r1 u1].
    destruct (bertopic_fit_transform _ docs w2) as [r2 u2].
    simpl in H. subst r2.
    destruct r1 as [fitted|e]; [|reflexivity].
    now destruct (get_topics fitted).
Qed.

End Claims.

(** C5.  Both functions pass parameters on.  The libraries receive the
    caller's values unaltered: [min_document_frequency] as [min_df],
    [number_of_topics] as [n_components], [top_n_words] and
    [min_topic_size] under their names, [umap_n_neighbors] as UMAP's
    [n_neighbors].  Every other keyword argument is the same whatever the
    caller passes, and the vectorizer of both functions has English stop
    words and [ngram_range=(1, 3)]. *)
Theorem parameters_reach_the_libraries_unaltered :
  forall docs min_document_frequency number_of_topics
         top_n_words min_topic_size umap_n_neighbors,
    let vectorizer := lda_vectorizer min_document_frequency in
    let model := lda_model number_of_topics in
    let bert := topic_model top_n_words min_topic_size umap_n_neighbors in
    (* the calls the libraries receive *)
    snd (extract_topics_with_lda (L := Recorder.library) docs
           min_document_frequency number_of_topics [])
    = [ Recorder.Received "CountVectorizer.fit_transform" vectorizer (Some docs);
        Recorder.Received "LatentDirichletAllocation.fit" model None ] /\
    snd (extract_topics_with_bertopic (L := Recorder.library) docs
           top_n_words min_topic_size umap_n_neighbors [])
    = [ Recorder.Received "BERTopic.fit_transform" bert (Some docs) ] /\
    (* the caller's values *)
    kwarg "min_df" vectorizer = Some (PyFloat min_document_frequency) /\
    kwarg "n_components" model = Some (PyInt number_of_topics) /\
    kwarg "top_n_words" bert = Some (PyInt top_n_words) /\
    kwarg "min_topic_size" bert = Some (PyInt min_topic_size) /\
    kwarg "umap_model" bert = Some (umap_model umap_n_neighbors) /\
    kwarg "n_neighbors" (params_of (umap_model umap_n_neighbors))
    = Some (PyInt umap_n_neighbors) /\
    (* everything else is fixed *)
    (forall other,
        without ["min_df"] vectorizer
        = without ["min_df"] (lda_vectorizer other)) /\
    (forall other,
        without ["n_components"] model
        = without ["n_components"] (lda_model other)) /\
    (forall other1 other2 other3,
        without ["top_n_words"; "min_topic_size"; "umap_model"] bert
        = without ["top_n_words"; "min_topic_size"; "umap_model"]
                  (topic_model other1 other2 other3)) /\
    (forall other,
        without ["n_neighbors"] (params_of (umap_model umap_n_neighbors))
        = without ["n_neighbors"] (params_of (umap_model other))) /\
    (* the vectorizer of both strategies *)
    kwarg "stop_words" vectorizer = Some (PyStr "english") /\
    kwarg "ngram_range" vectorizer = Some (PyTuple [PyInt 1; PyInt 3]) /\
    kwarg "vectorizer_model" bert = Some vectorizer_model /\
    kwarg "stop_words" (params_of vectorizer_model) = Some (PyStr "english") /\
    kwarg "ngram_range" (params_of vectorizer_model)
    = Some (PyTuple [PyInt 1; PyInt 3]).
Proof.
  intros. repeat split.
Qed.

(** ** The claims on the toy library *)

Example strategy_values :
  value lda = "lda" /\ value bertopic = "bertopic".
Proof. split; reflexivity. Qed.

Example run_lda_at_start :
  Toy.run_lda Toy.start = (Ok Toy.lda_topics, Toy.start).
Proof. reflexivity. Qed.

Example run_bertopic_at_start :
  Toy.run_bertopic Toy.start = (Ok Toy.bertopic_topics_at_start, Toy.later).
Proof. reflexivity. Qed.

(** No component for a topic count of zero: the toy LDA raises, and the
    exception reaches the caller as it is. *)
Example run_lda_without_topics :
  extract_topics_with_lda (L := Toy.library) Toy.docs 0.1 0 Toy.start
  = (Raise (@Raised Toy.library
              (Toy.ValueError "n_components must be positive")),
     Toy.start).
Proof. reflexivity. Qed.

Lemma topics_one_list_per_topic_witness :
  (exists topics,
      Toy.run_lda Toy.start = (Ok topics, Toy.start) /\ length topics = 2) /\
  (exists topics,
      Toy.run_bertopic Toy.start = (Ok topics, Toy.later) /\
      length topics = 2).
Proof.
  destruct (@topics_one_list_per_topic Toy.library
              ToyFacts.toy_argsort_sorts ToyFacts.toy_vectorizer_names
              ToyFacts.toy_lda_components_columns) as [Hlda Hbert].
  split.
  - destruct (Hlda Toy.docs 0.1%Q 2%Z Toy.start _ _ _ _ _ _
                eq_refl eq_refl eq_refl) as [topics [Hrun Hlen]].
    exists topics. split; [exact Hrun|exact Hlen].
  - destruct (Hbert Toy.docs 2%Z 10%Z 15%Z Toy.start _ _ _
                eq_refl eq_refl) as [topics [Hrun Hlen]].
    exists topics. split; [exact Hrun|exact Hlen].
Defined.

Lemma lda_topic_by_descending_weight_witness :
  exists tf fitted w1 feature_names fitted_lda,
    @fit_transform Toy.library (lda_vectorizer 0.1) Toy.docs Toy.start
      = (Ok (tf, fitted), w1) /\
    get_feature_names_out fitted = Ok feature_names /\
    lda_fit (lda_model 2) tf w1 = (Ok fitted_lda, Toy.start) /\
    Forall2 (fun row words =>
               map Some words
                 = map (nth_error feature_names) (rev (argsort row)) /\
               Contract.descending row (rev (argsort row)))
            (components_ fitted_lda) Toy.lda_topics.
Proof.
  apply (@lda_topic_by_descending_weight Toy.library ToyFacts.toy_argsort_sorts
           Toy.docs 0.1%Q 2%Z Toy.start Toy.lda_topics Toy.start).
  reflexivity.
Defined.

Lemma lda_topic_permutes_vocabulary_witness :
  exists tf fitted w1 feature_names,
    @fit_transform Toy.library (lda_vectorizer 0.1) Toy.docs Toy.start
      = (Ok (tf, fitted), w1) /\
    get_feature_names_out fitted = Ok feature_names /\
    Forall (fun words =>
              Permutation words feature_names /\
              NoDup words /\
              length words = length feature_names)
           Toy.lda_topics.
Proof.
  apply (@lda_topic_permutes_vocabulary Toy.library
           ToyFacts.toy_argsort_sorts ToyFacts.toy_vectorizer_names
           ToyFacts.toy_lda_components_columns
           Toy.docs 0.1%Q 2%Z Toy.start Toy.lda_topics Toy.start).
  reflexivity.
Defined.

Lemma lda_number_of_topics_witness :
  Z.of_nat (length Toy.lda_topics) = 2%Z.
Proof.
  apply (@lda_number_of_topics Toy.library ToyFacts.toy_lda_components_rows
           Toy.docs 0.1%Q 2%Z Toy.start Toy.lda_topics Toy.start).
  reflexivity.
Defined.

Lemma bertopic_keeps_words_in_order_witness :
  exists fitted mapping,
    @bertopic_fit_transform Toy.library (topic_model 2 10 15)
                           Toy.docs Toy.start = (Ok fitted, Toy.later) /\
    get_topics fitted = Ok mapping /\
    Forall2 (fun entry words =>
               Forall2 (fun pair word => fst pair = word) (snd entry) words)
            mapping Toy.bertopic_topics_at_start /\
    Forall (fun words => (Z.of_nat (length words) <= 2)%Z)
           Toy.bertopic_topics_at_start.
Proof.
  apply (@bertopic_keeps_words_in_order Toy.library
           ToyFacts.toy_bertopic_top_n_words
           Toy.docs 2%Z 10%Z 15%Z Toy.start
           Toy.bertopic_topics_at_start Toy.later).
  reflexivity.
Defined.

(** An empty list of documents: the toy vectorizer raises, and so does the
    toy BERTopic. *)
Lemma library_errors_propagate_unchanged_witness :
  extract_topics_with_lda (L := Toy.library) 1 0.1 2 Toy.start
  = (Raise (@Raised Toy.library (Toy.ValueError "empty vocabulary")), Toy.start) /\
  extract_topics_with_bertopic (L := Toy.library) 1 2 10 15 Toy.start
  = (Raise (@Raised Toy.library (Toy.ValueError "no documents")), Toy.start).
Proof.
  destruct (@library_errors_propagate_unchanged Toy.library
              ToyFacts.toy_argsort_sorts ToyFacts.toy_vectorizer_names
              ToyFacts.toy_lda_components_columns) as [Hlda Hbert].
  split.
  - apply Hlda. eexists. split; [reflexivity|]. left. reflexivity.
  - apply Hbert. eexists. split; [reflexivity|]. left. reflexivity.
Defined.

Lemma lda_deterministic_bertopic_as_its_fit_witness :
  fst (Toy.run_lda Toy.start) = fst (Toy.run_lda Toy.later).
Proof.
  destruct (@lda_deterministic_bertopic_as_its_fit Toy.library
              ToyFacts.toy_vectorizer_deterministic
              ToyFacts.toy_lda_seeded_deterministic) as [Hlda _].
  apply (Hlda Toy.docs 0.1%Q 2%Z Toy.start Toy.later). reflexivity.
Defined.

(** C3, as the claim states it, fails for [extract_topics_with_bertopic].
    The function builds UMAP without a [random_state], and BERTopic takes
    none: the fit draws from the global random generator.  On a library
    that keeps every contract above, a second call with the same arguments
    on the same documents, made in the world the first call left, returns
    other topics. *)
Lemma bertopic_second_call_differs :
  Contract.vectorizer_deterministic (L := Toy.library) /\
  Contract.lda_seeded_deterministic (L := Toy.library) /\
  Toy.run_bertopic Toy.start = (Ok Toy.bertopic_topics_at_start, Toy.later) /\
  @deref Toy.library Toy.docs Toy.later
  = @deref Toy.library Toy.docs Toy.start /\
  fst (Toy.run_bertopic Toy.later) = Ok Toy.bertopic_topics_later /\
  fst (Toy.run_bertopic Toy.later) <> fst (Toy.run_bertopic Toy.start) /\
  ~ (forall docs top_n_words min_topic_size umap_n_neighbors w1 w2,
        @deref Toy.library docs w1 = @deref Toy.library docs w2 ->
        fst (extract_topics_with_bertopic (L := Toy.library) docs top_n_words
               min_topic_size umap_n_neighbors w1)
        = fst (extract_topics_with_bertopic (L := Toy.library) docs top_n_words
                 min_topic_size umap_n_neighbors w2)).
Proof.
  split; [exact ToyFacts.toy_vectorizer_deterministic|].
  split; [exact ToyFacts.toy_lda_seeded_deterministic|].
  repeat split; try discriminate.
  intros H.
  specialize (H Toy.docs 2%Z 10%Z 15%Z Toy.later Toy.start eq_refl).
  discriminate H.
Qed.

(** * Further properties of the module *)

(** ** The strategy enumeration *)

(** X1.  The two strategies have distinct values, so neither member is an
    alias of the other, and lookup by value is the inverse of [value]:
    [TopicExtractionStrategy(v)] is the member [s] exactly when
    [s.value == v], and fails for every other string. *)
Theorem strategy_value_round_trip :
  (forall s t, value s = value t -> s = t) /\
  (forall s, of_value (value s) = Some s) /\
  (forall v s, of_value v = Some s -> value s = v) /\
  (forall v, v <> "lda" -> v <> "bertopic" -> of_value v = None).
Proof.
  split; [|split; [|split]].
  - intros [] []; simpl; intros H; try reflexivity; discriminate H.
  - intros []; reflexivity.
  - intros v s H. unfold of_value in H.
    apply find_some in H. destruct H as [_ H].
    now apply String.eqb_eq.
  - intros v Hlda Hbert.
    destruct (of_value v) as [s|] eqn:E; [|reflexivity].
    unfold of_value in E. apply find_some in E. destruct E as [_ E].
    apply String.eqb_eq in E. destruct s; simpl in E; congruence.
Qed.

(** ** Subscripts out of range *)

Section Bounds.

Context {L : Libraries}.

(** A comprehension raises as soon as its body raises on one element, and
    what it raises is raised by the body. *)
Lemma comprehension_Exists_Raise A B (f : A -> result exn B) l :
  Exists (fun a => exists e, f a = Raise e) l ->
  exists e a, In a l /\ f a = Raise e /\ comprehension f l = Raise e.
Proof.
  induction l as [|a l IH]; intros H; [inversion H|].
  simpl. destruct (f a) as [b|e] eqn:Ea.
  - inversion H as [a0 l0 [e He]|a0 l0 Hl]; subst; [congruence|].
    destruct (IH Hl) as [e [a' [Hin [Ha' Hc]]]].
    exists e, a'. rewrite Hc. auto.
  - exists e, a. auto.
Qed.

Lemma topic_words_Raise feature_names row e :
  topic_words feature_names row = Raise e ->
  e = IndexError /\
  Exists (fun i => length feature_names <= i) (argsort row).
Proof.
  unfold topic_words. intros H.
  apply comprehension_Raise in H. destruct H as [i [Hin Hi]].
  apply getitem_Raise in Hi. destruct Hi as [-> Hi].
  split; [reflexivity|].
  apply Exists_exists. exists i. split; [|exact Hi].
  now apply in_rev.
Qed.

Lemma topic_words_out_of_range feature_names row :
  Exists (fun i => length feature_names <= i) (argsort row) ->
  topic_words feature_names row = Raise IndexError.
Proof.
  intros H. unfold topic_words.
  destruct (@comprehension_Exists_Raise _ _ (getitem feature_names)
              (rev (argsort row))) as [e [i [_ [Hi Hc]]]].
  - apply Exists_exists in H. destruct H as [i [Hin Hi]].
    apply Exists_exists. exists i. split; [now apply in_rev in Hin|].
    unfold getitem.
    destruct (nth_error feature_names i) eqn:E; [|eauto].
    assert (i < length feature_names) by (apply nth_error_Some; congruence).
    lia.
  - apply getitem_Raise in Hi. destruct Hi as [-> _]. exact Hc.
Qed.

(** X3.  [extract_topics_with_lda] ends in the [IndexError] of
    [feature_names[i]] exactly when the library calls succeed and the
    argsort of some row of [components_] holds an index that is not below
    the number of feature names; the world is then as [lda.fit] left it. *)
Theorem lda_index_error_iff :
  forall docs min_document_frequency number_of_topics w w',
    extract_topics_with_lda docs min_document_frequency number_of_topics w
      = (Raise IndexError, w') <->
    exists tf fitted w1 feature_names fitted_lda,
      fit_transform (lda_vectorizer min_document_frequency) docs w
        = (Ok (tf, fitted), w1) /\
      get_feature_names_out fitted = Ok feature_names /\
      lda_fit (lda_model number_of_topics) tf w1 = (Ok fitted_lda, w') /\
      Exists (fun row =>
                Exists (fun i => length feature_names <= i) (argsort row))
             (components_ fitted_lda).
Proof.
  intros docs mdf n w w'. rewrite lda_run. split.
  - destruct (fit_transform _ docs w) as [[[tf fitted]|e] w1];
      [|discriminate].
    destruct (get_feature_names_out fitted) as [names|e] eqn:Hn;
      [|discriminate].
    destruct (lda_fit _ tf w1) as [[fitted_lda|e] w2] eqn:Hlda;
      [|discriminate].
    intros H. injection H as Hc <-.
    exists tf, fitted, w1, names, fitted_lda. repeat split; try assumption.
    apply comprehension_Raise in Hc. destruct Hc as [row [Hin Hrow]].
    apply Exists_exists. exists row. split; [exact Hin|].
    now apply topic_words_Raise in Hrow.
  - intros [tf [fitted [w1 [names [fitted_lda [Hfit [Hn [Hlda Hex]]]]]]]].
    rewrite Hfit, Hn, Hlda. f_equal.
    destruct (@comprehension_Exists_Raise _ _ (topic_words names)
                (components_ fitted_lda)) as [e [row [_ [Hrow Hc]]]].
    + eapply Exists_impl; [|exact Hex].
      intros row Hrow. exists IndexError.
      now apply topic_words_out_of_range.
    + apply topic_words_Raise in Hrow. destruct Hrow as [-> _]. exact Hc.
Qed.

End Bounds.

(** ** Words, weights and repeated calls *)

Section Topics.

Context {L : Libraries}.

(** X2.  Whatever the libraries do, [extract_topics_with_lda] invents no
    word: every word of every returned topic is one of the vectorizer's
    feature names, and a topic has as many words as the argsort of its row
    has indices. *)
Theorem lda_words_are_feature_names :
  forall docs min_document_frequency number_of_topics w topics w',
    extract_topics_with_lda docs min_document_frequency number_of_topics w
      = (Ok topics, w') ->
    exists tf fitted w1 feature_names fitted_lda,
      fit_transform (lda_vectorizer min_document_frequency) docs w
        = (Ok (tf, fitted), w1) /\
      get_feature_names_out fitted = Ok feature_names /\
      lda_fit (lda_model number_of_topics) tf w1 = (Ok fitted_lda, w') /\
      Forall2 (fun row words =>
                 length words = length (argsort row) /\
                 incl words feature_names)
              (components_ fitted_lda) topics.
Proof.
  intros docs mdf n w topics w' Hrun.
  destruct (lda_returns _ _ _ _ Hrun)
    as [tf [fitted [w1 [names [fitted_lda [Hfit [Hn [Hlda Htopics]]]]]]]].
  exists tf, fitted, w1, names, fitted_lda. repeat split; try assumption.
  apply comprehension_Ok_iff in Htopics.
  eapply Forall2_impl; [|exact Htopics].
  intros row words Hwords. apply subscripts_Ok_iff in Hwords. split.
  - apply (f_equal (@length _)) in Hwords.
    now rewrite !length_map, length_rev in Hwords.
  - intros word Hin.
    apply (in_map Some) in Hin. rewrite Hwords in Hin.
    apply in_map_iff in Hin. destruct Hin as [i [Hi _]].
    eapply nth_error_In. exact Hi.
Qed.

(** X4.  The first word of a topic is a feature of largest weight: it is
    the feature name at an index of the row whose weight no weight at
    another index of the row exceeds. *)
Theorem lda_first_word_is_heaviest :
  Contract.argsort_sorts ->
  forall docs min_document_frequency number_of_topics w topics w',
    extract_topics_with_lda docs min_document_frequency number_of_topics w
      = (Ok topics, w') ->
    exists tf fitted w1 feature_names fitted_lda,
      fit_transform (lda_vectorizer min_document_frequency) docs w
        = (Ok (tf, fitted), w1) /\
      get_feature_names_out fitted = Ok feature_names /\
      lda_fit (lda_model number_of_topics) tf w1 = (Ok fitted_lda, w') /\
      Forall2 (fun row words =>
                 forall first others,
                   words = first :: others ->
                   exists i,
                     nth_error feature_names i = Some first /\
                     i < length row /\
                     forall j,
                       j < length row -> j <> i ->
                       Contract.weight_at_le row j i)
              (components_ fitted_lda) topics.
Proof.
  intros Hsort docs mdf n w topics w' Hrun.
  destruct (lda_returns _ _ _ _ Hrun)
    as [tf [fitted [w1 [names [fitted_lda [Hfit [Hn [Hlda Htopics]]]]]]]].
  exists tf, fitted, w1, names, fitted_lda. repeat split; try assumption.
  apply comprehension_Ok_iff in Htopics.
  eapply Forall2_impl; [|exact Htopics].
  intros row words Hwords first others ->.
  apply subscripts_Ok_iff in Hwords.
  destruct (Hsort row) as [Hperm Hasc].
  apply ascending_rev in Hasc.
  assert (Hrev : Permutation (rev (argsort row)) (seq 0 (length row))).
  { rewrite <- Hperm. symmetry. apply Permutation_rev. }
  destruct (rev (argsort row)) as [|i indices]; [discriminate|].
  simpl in Hwords. injection Hwords as Hfirst _.
  exists i. split; [now symmetry|]. split.
  - assert (Hi : In i (seq 0 (length row)))
      by (apply (Permutation_in _ Hrev); now left).
    apply in_seq in Hi. lia.
  - intros j Hj Hne.
    assert (Hin : In j (i :: indices)).
    { apply (Permutation_in _ (Permutation_sym Hrev)), in_seq. lia. }
    destruct Hin as [->|Hin]; [congruence|].
    apply StronglySorted_inv in Hasc. destruct Hasc as [_ Hall].
    rewrite Forall_forall in Hall. now apply Hall.
Qed.

(** Under the determinism contracts the LDA function returns the same
    result in any two worlds that agree on the documents. *)
Lemma lda_same_in_worlds :
  Contract.vectorizer_deterministic ->
  Contract.lda_seeded_deterministic ->
  forall docs min_document_frequency number_of_topics w1 w2,
    deref docs w1 = deref docs w2 ->
    fst (extract_topics_with_lda docs min_document_frequency
                                 number_of_topics w1)
    = fst (extract_topics_with_lda docs min_document_frequency
                                   number_of_topics w2).
Proof.
  intros Hcv Hseeded docs mdf n w1 w2 Hdocs. rewrite !lda_run.
  pose proof (Hcv (lda_vectorizer mdf) docs w1 w2 Hdocs) as Hsame.
  destruct (fit_transform _ docs w1) as [r u1].
  destruct (fit_transform _ docs w2) as [r' u2].
  simpl in Hsame. subst r'.
  destruct r as [[tf fitted]|e]; [|reflexivity].
  destruct (get_feature_names_out fitted) as [names|e]; [|reflexivity].
  pose proof (Hseeded (lda_model n) tf 0%Z u1 u2 eq_refl) as Hfit.
  destruct (lda_fit _ tf u1) as [r v1].
  destruct (lda_fit _ tf u2) as [r' v2].
  simpl in Hfit. subst r'.
  now destruct r.
Qed.

(** X5.  Calls compose: when the libraries only read [docs], a second call
    of [extract_topics_with_lda] in the world the first call left returns
    what the first returned, and so does a call made after a call of
    [extract_topics_with_bertopic] on the same documents. *)
Theorem lda_repeats_after_earlier_calls :
  Contract.vectorizer_deterministic ->
  Contract.lda_seeded_deterministic ->
  forall docs,
    Contract.preserves (deref docs) ->
    forall min_document_frequency number_of_topics
           top_n_words min_topic_size umap_n_neighbors w,
      let again w := extract_topics_with_lda docs min_document_frequency
                                             number_of_topics w in
      fst (again (snd (again w))) = fst (again w) /\
      fst (again (snd (extract_topics_with_bertopic
                         docs top_n_words min_topic_size
                         umap_n_neighbors w)))
      = fst (again w).
Proof.
  intros Hcv Hseeded docs Hdocs mdf n top_n mts umap w. simpl.
  destruct (functions_frame Hdocs docs mdf n top_n mts umap w) as [H1 H2].
  split; apply lda_same_in_worlds; assumption.
Qed.


End Topics.

(** ** The further properties on the toy libraries *)

(** One feature name short: the largest index of a row has no name. *)
Example run_lda_on_ragged_library :
  extract_topics_with_lda (L := Ragged.library) Toy.docs 0.1 2 Toy.start
  = (Raise IndexError, Toy.start).
Proof. reflexivity. Qed.

Lemma lda_words_are_feature_names_witness :
  exists tf fitted w1 feature_names fitted_lda,
    @fit_transform Toy.library (lda_vectorizer 0.1) Toy.docs Toy.start
      = (Ok (tf, fitted), w1) /\
    get_feature_names_out fitted = Ok feature_names /\
    lda_fit (lda_model 2) tf w1 = (Ok fitted_lda, Toy.start) /\
    Forall2 (fun row words =>
               length words = length (argsort row) /\
               incl words feature_names)
            (components_ fitted_lda) Toy.lda_topics.
Proof.
  apply (@lda_words_are_feature_names Toy.library
           Toy.docs 0.1%Q 2%Z Toy.start Toy.lda_topics Toy.start).
  reflexivity.
Defined.

Lemma lda_first_word_is_heaviest_witness :
  exists tf fitted w1 feature_names fitted_lda,
    @fit_transform Toy.library (lda_vectorizer 0.1) Toy.docs Toy.start
      = (Ok (tf, fitted), w1) /\
    get_feature_names_out fitted = Ok feature_names /\
    lda_fit (lda_model 2) tf w1 = (Ok fitted_lda, Toy.start) /\
    Forall2 (fun row words =>
               forall first others,
                 words = first :: others ->
                 exists i,
                   nth_error feature_names i = Some first /\
                   i < length row /\
                   forall j,
                     j < length row -> j <> i ->
                     Contract.weight_at_le row j i)
            (components_ fitted_lda) Toy.lda_topics.
Proof.
  apply (@lda_first_word_is_heaviest Toy.library ToyFacts.toy_argsort_sorts
           Toy.docs 0.1%Q 2%Z Toy.start Toy.lda_topics Toy.start).
  reflexivity.
Defined.

Lemma lda_repeats_after_earlier_calls_witness :
  fst (Toy.run_lda (snd (Toy.run_lda Toy.start)))
  = fst (Toy.run_lda Toy.start) /\
  fst (Toy.run_lda (snd (Toy.run_bertopic Toy.start)))
  = fst (Toy.run_lda Toy.start).
Proof.
  apply (@lda_repeats_after_earlier_calls Toy.library
           ToyFacts.toy_vectorizer_deterministic
           ToyFacts.toy_lda_seeded_deterministic
           Toy.docs (ToyFacts.preserves_lists Toy.docs)
           0.1%Q 2%Z 2%Z 10%Z 15%Z Toy.start).
Defined.


(** * The steps of the functions, and the state they leave *)

(** C4, as the claim states it, fails for [extract_topics_with_lda].  The
    claim has one fit, of the constructed model, on the input documents.
    The function fits twice: the vectorizer on the documents, then the LDA
    estimator on the matrix of term counts that the vectorizer returned,
    not on the documents. *)
Lemma lda_fits_twice_and_the_model_on_the_matrix :
  snd (extract_topics_with_lda (L := Recorder.library) Toy.docs 0.1 2 [])
  = [ Recorder.Received "CountVectorizer.fit_transform"
        (lda_vectorizer 0.1) (Some Toy.docs);
      Recorder.Received "LatentDirichletAllocation.fit" (lda_model 2) None ] /\
  ~ Recorder.one_fit_on Toy.docs
      (snd (extract_topics_with_lda (L := Recorder.library)
              Toy.docs 0.1 2 [])).
Proof.
  split; [reflexivity|].
  intros [fit [model H]]. discriminate H.
Qed.

(** C4, in the form the code supports.  The steps of
    [extract_topics_with_lda], in order: a [CountVectorizer] with the fixed
    and passed hyperparameters is fitted on the input documents; its
    feature names are read; [LatentDirichletAllocation] with the fixed and
    passed hyperparameters is fitted on the matrix the vectorizer returned,
    in the state the vectorizer left; the result is, for each row of
    [components_], the feature names at the reversed argsort of the row.
    The steps of [extract_topics_with_bertopic]: [BERTopic], built with the
    vectorizer and the UMAP object, is fitted once on the input documents;
    the result is, for each entry of [get_topics()], the words of its
    pairs.  A step that raises ends the call, and nothing else contributes
    to the result. *)
Theorem steps_of_each_function :
  forall (L : Libraries) docs min_document_frequency number_of_topics
         top_n_words min_topic_size umap_n_neighbors w,
    let vectorizer : kwargs :=
      [ ("min_df", PyFloat min_document_frequency);
        ("max_df", PyFloat 1.0);
        ("ngram_range", PyTuple [PyInt 1; PyInt 3]);
        ("max_features", PyNone);
        ("stop_words", PyStr "english") ] in
    let estimator : kwargs :=
      [ ("n_components", PyInt number_of_topics);
        ("doc_topic_prior", PyNone);
        ("topic_word_prior", PyNone);
        ("learning_method", PyStr "batch");
        ("learning_decay", PyFloat 0.7);
        ("learning_offset", PyFloat 10.0);
        ("max_iter", PyInt 5000);
        ("batch_size", PyInt 128);
        ("evaluate_every", PyInt (-1));
        ("total_samples", PyFloat 1000000.0);
        ("perp_tol", PyFloat 0.1);
        ("mean_change_tol", PyFloat 0.001);
        ("max_doc_update_iter", PyInt 100);
        ("random_state", PyInt 0) ] in
    let bert : kwargs :=
      [ ("language", PyStr "english");
        ("verbose", PyBool true);
        ("top_n_words", PyInt top_n_words);
        ("min_topic_size", PyInt min_topic_size);
        ("vectorizer_model",
         PyObject "CountVectorizer"
           [ ("stop_words", PyStr "english");
             ("ngram_range", PyTuple [PyInt 1; PyInt 3]) ]);
        ("umap_model",
         PyObject "UMAP"
           [ ("n_neighbors", PyInt umap_n_neighbors);
             ("n_components", PyInt 5);
             ("min_dist", PyFloat 0.0);
             ("metric", PyStr "cosine");
             ("low_memory", PyBool false) ]) ] in
    let run_lda :=
      extract_topics_with_lda docs min_document_frequency number_of_topics w in
    let run_bertopic :=
      extract_topics_with_bertopic docs top_n_words min_topic_size
                                   umap_n_neighbors w in
    (* LDA: the vectorizer is fitted on the documents *)
    (forall e w1,
        fit_transform vectorizer docs w = (Raise e, w1) ->
        run_lda = (Raise (Raised e), w1)) /\
    (forall tf fitted w1,
        fit_transform vectorizer docs w = (Ok (tf, fitted), w1) ->
        (* the feature names are read *)
        (forall e,
            get_feature_names_out fitted = Raise e ->
            run_lda = (Raise (Raised e), w1)) /\
        (forall feature_names,
            get_feature_names_out fitted = Ok feature_names ->
            (* the estimator is fitted on the matrix *)
            (forall e w2,
                lda_fit estimator tf w1 = (Raise e, w2) ->
                run_lda = (Raise (Raised e), w2)) /\
            (forall fitted_lda w2,
                lda_fit estimator tf w1 = (Ok fitted_lda, w2) ->
                (* indices are mapped to feature names *)
                exists r,
                  run_lda = (r, w2) /\
                  (forall topics,
                      r = Ok topics <->
                      Forall2 (fun row words =>
                                 map Some words
                                 = map (nth_error feature_names)
                                       (rev (argsort row)))
                              (components_ fitted_lda) topics) /\
                  (forall x, r = Raise x -> x = IndexError)))) /\
    (* BERTopic: the model is fitted on the documents *)
    (forall e w1,
        bertopic_fit_transform bert docs w = (Raise e, w1) ->
        run_bertopic = (Raise (Raised e), w1)) /\
    (forall fitted w1,
        bertopic_fit_transform bert docs w = (Ok fitted, w1) ->
        (* the topics are read *)
        (forall e,
            get_topics fitted = Raise e ->
            run_bertopic = (Raise (Raised e), w1)) /\
        (* each entry is mapped to its words *)
        (forall mapping,
            get_topics fitted = Ok mapping ->
            run_bertopic
            = (Ok (map (fun entry => map fst (snd entry)) mapping), w1))) /\
    (* the calls that the libraries see, after those seen before *)
    (forall log,
        snd (extract_topics_with_lda (L := Recorder.library) docs
               min_document_frequency number_of_topics log)
        = (log ++
           [ Recorder.Received "CountVectorizer.fit_transform"
               vectorizer (Some docs);
             Recorder.Received "LatentDirichletAllocation.fit"
               estimator None ])%list) /\
    (forall log,
        snd (extract_topics_with_bertopic (L := Recorder.library) docs
               top_n_words min_topic_size umap_n_neighbors log)
        = (log ++ [ Recorder.Received "BERTopic.fit_transform"
                      bert (Some docs) ])%list) /\
    Recorder.one_fit_on docs
      (snd (extract_topics_with_bertopic (L := Recorder.library) docs
              top_n_words min_topic_size umap_n_neighbors [])).
Proof.
  intros L docs mdf n top_n mts umap w.
  intros vectorizer estimator bert run_lda run_bertopic.
  subst run_lda run_bertopic. rewrite lda_run, bertopic_run.
  change (lda_vectorizer mdf) with vectorizer.
  change (lda_model n) with estimator.
  change (topic_model top_n mts umap) with bert.
  refine (conj _ (conj _ (conj _ (conj _ (conj _ (conj _ _)))))).
  - intros e w1 ->. reflexivity.
  - intros tf fitted w1 ->. split.
    + intros e ->. reflexivity.
    + intros feature_names ->. split.
      * intros e w2 ->. reflexivity.
      * intros fitted_lda w2 ->.
        exists (comprehension (topic_words feature_names)
                              (components_ fitted_lda)).
        split; [reflexivity|]. split.
        -- intros topics. rewrite comprehension_Ok_iff.
           split; intros HF; (eapply Forall2_impl; [|exact HF]);
             intros row words Hw; now apply subscripts_Ok_iff.
        -- intros x Hx. apply comprehension_Raise in Hx.
           destruct Hx as [row [_ Hrow]].
           now apply topic_words_Raise in Hrow.
  - intros e w1 ->. reflexivity.
  - intros fitted w1 ->. split.
    + intros e ->. reflexivity.
    + intros mapping ->. f_equal. f_equal.
      unfold values, group_words. rewrite map_map.
      apply map_ext. intros [key group]. simpl.
      apply map_ext. now intros [word score].
  - intros log. simpl. now rewrite <- app_assoc.
  - intros log. reflexivity.
  - eexists. eexists. reflexivity.
Qed.

Lemma steps_of_each_function_witness :
  (exists r,
      Toy.run_lda Toy.start = (r, Toy.start) /\
      (forall x, r = Raise x -> x = IndexError)) /\
  Toy.run_bertopic Toy.start
  = (Ok Toy.bertopic_topics_at_start, Toy.later).
Proof.
  destruct (@steps_of_each_function Toy.library Toy.docs 0.1%Q 2%Z
              2%Z 10%Z 15%Z Toy.start)
    as [_ [Hlda [_ [Hbert _]]]].
  split.
  - destruct (Hlda _ _ _ eq_refl) as [_ Hnames].
    destruct (Hnames _ eq_refl) as [_ Hfit].
    destruct (Hfit _ _ eq_refl) as [r [Hrun [_ Hraise]]].
    exists r. split; [exact Hrun|exact Hraise].
  - destruct (Hbert _ _ eq_refl) as [_ Hget].
    exact (Hget _ eq_refl).
Defined.



